(** * interview-react: the search-as-you-type widget of [src/App.tsx]

    A shallow embedding of the pure parts of the React components
    [FeaturefulSearchInput], [ServiceSearch] and [SearchServiceProvider],
    together with a small event machine for the effects of [ServiceSearch].

    JavaScript strings are sequences of UTF-16 code units; they are modelled
    as lists of code units, so that [length], [substring], [includes],
    [trim] and [===] act on exactly the units the platform functions see. *)

From Stdlib Require Import NArith String Ascii.
From stdpp Require Import base decidable numbers list.

Local Open Scope N_scope.

(** ** Platform strings *)

Abbreviation code_unit := N (only parsing).
Abbreviation jsstring := (list N) (only parsing).

(** A string literal of the source, unit by unit (all literals of the claims
    are ASCII, where a byte is a code unit). *)
Definition js (s : string) : jsstring :=
  map N_of_ascii (list_ascii_of_string s).

Module JS.

(** [a === b] on two strings: same units in the same order. *)
Definition strictEq (a b : jsstring) : bool := bool_decide (a = b).

(** [s.substring(start, end)]: both indices are clamped to the length and
    swapped when [start > end]. *)
Definition substring (start end_ : nat) (s : jsstring) : jsstring :=
  let a := Nat.min start (length s) in
  let b := Nat.min end_ (length s) in
  let lo := Nat.min a b in
  let hi := Nat.max a b in
  take (hi - lo) (drop lo s).

(** [q] occurs in [s] at position 0. *)
Fixpoint startsWith (s q : jsstring) {struct q} : bool :=
  match q, s with
  | [], _ => true
  | _ :: _, [] => false
  | a :: q', b :: s' => (a =? b) && startsWith s' q'
  end.

(** [s.includes(q)]: [q] occurs in [s] at some position. *)
Fixpoint includes (s q : jsstring) : bool :=
  startsWith s q ||
  match s with
  | [] => false
  | _ :: s' => includes s' q
  end.

(** WhiteSpace and LineTerminator of ECMAScript, the units [trim] strips:
    TAB, LF, VT, FF, CR, SP, NBSP, U+1680, U+2000..U+200A, U+2028, U+2029,
    U+202F, U+205F, U+3000 and U+FEFF. *)
Definition isWhiteSpace (c : code_unit) : bool :=
  ((9 <=? c) && (c <=? 13)) || (c =? 32) || (c =? 160) || (c =? 5760)
  || ((8192 <=? c) && (c <=? 8202)) || (c =? 8232) || (c =? 8233)
  || (c =? 8239) || (c =? 8287) || (c =? 12288) || (c =? 65279).

Fixpoint trimStart (s : jsstring) : jsstring :=
  match s with
  | [] => []
  | c :: s' => if isWhiteSpace c then trimStart s' else s
  end.

Definition trimEnd (s : jsstring) : jsstring :=
  reverse (trimStart (reverse s)).

(** [s.trim()] *)
Definition trim (s : jsstring) : jsstring := trimEnd (trimStart s).

(** [x || d] where [x] is a string or [undefined]: [undefined] and the
    empty string are the falsy ones. *)
Definition orElse (x : option jsstring) (d : jsstring) : jsstring :=
  match x with
  | None => d
  | Some [] => d
  | Some s => s
  end.

End JS.

(** ** Data model: [Service] and the five state cells of
       [SearchServiceProvider] *)

Record Service := { id : jsstring; name : jsstring }.

#[global] Instance Service_eq_dec : EqDecision Service.
Proof. solve_decision. Defined.

Record State := {
  services : list Service;
  filteredServices : list Service;
  serviceSearchInputValue : jsstring;
  fakeSpanDomWidth : jsstring;
  suggestionInputPlaceholder : jsstring;
}.

(** The arguments of the five [useState] calls. *)
Definition initialState : State := {|
  services := [];
  filteredServices := [];
  serviceSearchInputValue := js "";
  fakeSpanDomWidth := js "100%";
  suggestionInputPlaceholder := js "";
|}.

(** ** [FeaturefulSearchInput] *)

(** [filteredServices[0]?.name || ""] *)
Definition firstSearchItemText (filtered : list Service) : jsstring :=
  JS.orElse (name <$> filtered !! 0%nat) (js "").

Definition isInputValueSubstrinOfFirstSearchItem
    (inputValue : jsstring) (filtered : list Service) : bool :=
  JS.strictEq inputValue
    (JS.substring 0 (length inputValue) (firstSearchItemText filtered)).

(** The value the suggestion effect hands to its throttled setter. *)
Definition newPlaceholder
    (inputValue : jsstring) (filtered : list Service) : jsstring :=
  if isInputValueSubstrinOfFirstSearchItem inputValue filtered
  then firstSearchItemText filtered
  else js "".

Definition shouldInputExpand (width placeholder : jsstring) : bool :=
  JS.strictEq width (js "0px") || (length placeholder =? 0)%nat.

(** The [style.width] of the editable input. *)
Definition inputWidth (width placeholder : jsstring) : jsstring :=
  if shouldInputExpand width placeholder then js "100%" else width.

(** ** [ServiceSearch] *)

(** [services.filter((s) => s.name.includes(serviceSearchInputValue))] *)
Definition results (inputValue : jsstring) (svcs : list Service) : list Service :=
  filter (fun s => JS.includes (name s) inputValue) svcs.

(** The argument of [setFilteredServices] in the filter effect. *)
Definition filteredItems (inputValue : jsstring) (svcs : list Service) : list Service :=
  if negb (JS.strictEq (JS.trim inputValue) (js ""))
  then results inputValue svcs
  else [].

Definition fetchUrl : jsstring := js "/api/services?zoneId=1".

(** A settled promise. *)
Inductive Settled (A : Type) : Type :=
| Fulfilled (a : A)
| Rejected.
Arguments Fulfilled {A} a.
Arguments Rejected {A}.

(** What the code reads of a response: the promise of [res.json()]. *)
Record Response := { json : Settled (list Service) }.

(** ** State writes *)

Definition setServices (s : list Service) (st : State) : State :=
  {| services := s;
     filteredServices := filteredServices st;
     serviceSearchInputValue := serviceSearchInputValue st;
     fakeSpanDomWidth := fakeSpanDomWidth st;
     suggestionInputPlaceholder := suggestionInputPlaceholder st |}.

Definition setFilteredServices (s : list Service) (st : State) : State :=
  {| services := services st;
     filteredServices := s;
     serviceSearchInputValue := serviceSearchInputValue st;
     fakeSpanDomWidth := fakeSpanDomWidth st;
     suggestionInputPlaceholder := suggestionInputPlaceholder st |}.

Definition setServiceSearchInputValue (v : jsstring) (st : State) : State :=
  {| services := services st;
     filteredServices := filteredServices st;
     serviceSearchInputValue := v;
     fakeSpanDomWidth := fakeSpanDomWidth st;
     suggestionInputPlaceholder := suggestionInputPlaceholder st |}.

Definition setFakeSpanDomWidth (w : jsstring) (st : State) : State :=
  {| services := services st;
     filteredServices := filteredServices st;
     serviceSearchInputValue := serviceSearchInputValue st;
     fakeSpanDomWidth := w;
     suggestionInputPlaceholder := suggestionInputPlaceholder st |}.

Definition setSuggestionInputPlaceholder (p : jsstring) (st : State) : State :=
  {| services := services st;
     filteredServices := filteredServices st;
     serviceSearchInputValue := serviceSearchInputValue st;
     fakeSpanDomWidth := fakeSpanDomWidth st;
     suggestionInputPlaceholder := p |}.

(** [fetch(url).then((res) => res.json().then((s) => setServices(s)))]:
    both [then]s carry a fulfilment handler only, so a rejection of either
    promise calls nothing. *)
Definition onFetchSettled (r : Settled Response) (st : State) : State :=
  match r with
  | Fulfilled res =>
      match json res with
      | Fulfilled s => setServices s st
      | Rejected => st
      end
  | Rejected => st
  end.

(** The filter effect of [ServiceSearch], run on the rendered state. *)
Definition filterEffect (st : State) : State :=
  setFilteredServices
    (filteredItems (serviceSearchInputValue st) (services st)) st.

(** ** The effects of [ServiceSearch] as an event machine

    A widget is the provider's state together with what React remembers of
    the two effects (the dependencies of their last run) and the requests
    sent so far. *)

(** [useEffect(f, deps)]: [f] runs after the first commit, and after every
    later commit whose dependencies differ from those of the commit before. *)
Definition effectFires {D : Type} `{EqDecision D}
    (prev : option D) (cur : D) : bool :=
  match prev with
  | None => true
  | Some d => negb (bool_decide (d = cur))
  end.

Record Widget := {
  state : State;
  (** [[setServices]]: a [useState] setter is the same function in every
      render, so the dependency carries no information. *)
  fetchEffectDeps : option unit;
  (** [[serviceSearchInputValue, services, setFilteredServices]]; the arrays
      are compared by their items here, where React compares them by
      identity: a new array with the same items runs the effect again in
      React, and that run writes the list it wrote before. *)
  filterEffectDeps : option (jsstring * list Service);
  (** URLs handed to [fetch], oldest first. *)
  requests : list jsstring;
  (** Requests not settled yet. *)
  inFlight : nat;
}.

Definition unmounted : Widget := {|
  state := initialState;
  fetchEffectDeps := None;
  filterEffectDeps := None;
  requests := [];
  inFlight := 0%nat;
|}.

Definition withState (st : State) (w : Widget) : Widget :=
  {| state := st;
     fetchEffectDeps := fetchEffectDeps w;
     filterEffectDeps := filterEffectDeps w;
     requests := requests w;
     inFlight := inFlight w |}.

(** First effect: [fetch("/api/services?zoneId=1")...], deps [[setServices]]. *)
Definition runFetchEffect (w : Widget) : Widget :=
  if effectFires (fetchEffectDeps w) tt
  then {| state := state w;
          fetchEffectDeps := Some tt;
          filterEffectDeps := filterEffectDeps w;
          requests := requests w ++ [fetchUrl];
          inFlight := S (inFlight w) |}
  else w.

(** Second effect: the filter. *)
Definition runFilterEffect (w : Widget) : Widget :=
  let deps := (serviceSearchInputValue (state w), services (state w)) in
  if effectFires (filterEffectDeps w) deps
  then {| state := filterEffect (state w);
          fetchEffectDeps := fetchEffectDeps w;
          filterEffectDeps := Some deps;
          requests := requests w;
          inFlight := inFlight w |}
  else w.

Inductive Event :=
| Commit
    (** a render is committed and its effects run; the first one mounts *)
| FetchSettled (r : Settled Response)
    (** the promise of the request in flight settles *)
| QueryDelivered (value : jsstring)
    (** the 120ms gate calls [setServiceSearchInputValue] *)
| WidthDelivered (newWidth : jsstring)
    (** the 120ms gate calls [setFakeSpanDomWidth] *)
| PlaceholderDelivered (newPlaceholder : jsstring).
    (** the 500ms gate calls [setSuggestionInputPlaceholder] *)

Definition step (w : Widget) (e : Event) : Widget :=
  match e with
  | Commit => runFilterEffect (runFetchEffect w)
  | FetchSettled r =>
      match inFlight w with
      | O => w
      | S n =>
          {| state := onFetchSettled r (state w);
             fetchEffectDeps := fetchEffectDeps w;
             filterEffectDeps := filterEffectDeps w;
             requests := requests w;
             inFlight := n |}
      end
  | QueryDelivered value =>
      withState (setServiceSearchInputValue value (state w)) w
  | WidthDelivered newWidth =>
      withState (setFakeSpanDomWidth newWidth (state w)) w
  | PlaceholderDelivered newPlaceholder =>
      withState (setSuggestionInputPlaceholder newPlaceholder (state w)) w
  end.

Definition run (evs : list Event) (w : Widget) : Widget :=
  fold_left step evs w.

(** The events that settle the request; every other event leaves it in
    flight. *)
Definition isSettlement (e : Event) : bool :=
  match e with
  | FetchSettled _ => true
  | _ => false
  end.

(** The widget is mounted and its request has not settled: one request is
    in flight and the fetched list is still the initial one. *)
Definition awaitingResponse (w : Widget) : Prop :=
  fetchEffectDeps w = Some tt /\ inFlight w = 1%nat /\
  services (state w) = [].

(** [q] occurs in [s] as a contiguous run of units. *)
Definition contains (s q : jsstring) : Prop :=
  exists pre post, s = pre ++ q ++ post.

(** The first or the last unit of [q] is white space. *)
Definition hasOuterWhiteSpace (q : jsstring) : Prop :=
  (exists c, head q = Some c /\ JS.isWhiteSpace c = true) \/
  (exists c, last q = Some c /\ JS.isWhiteSpace c = true).

(** ** [SearchResults] *)

(** One [<li>] of the result list: its React key and the text it shows. *)
Record Row := { key : jsstring; text : jsstring }.

(** [results.map(({ name }) => <li key={name} ...>{name}</li>)] over the
    [filteredServices] of the context. *)
Definition SearchResults (filtered : list Service) : list Row :=
  (fun s => {| key := name s; text := name s |}) <$> filtered.

(** ** Invariants of the event machine *)

(** What the filter effect remembers of its last run agrees with what that
    run wrote. *)
Definition filterDepsAgree (w : Widget) : Prop :=
  forall q s,
    filterEffectDeps w = Some (q, s) ->
    filteredServices (state w) = filteredItems q s.

(** The bookkeeping of the one request: nothing is in flight before the
    mount, at most one request is in flight after it, and while it is in
    flight both lists are still empty. *)
Definition fetchBookkeeping (w : Widget) : Prop :=
  filteredServices (state w) `sublist_of` services (state w) /\
  (inFlight w <= 1)%nat /\
  (fetchEffectDeps w = None ->
     inFlight w = 0%nat /\ services (state w) = []) /\
  (inFlight w <> 0%nat ->
     services (state w) = [] /\ filteredServices (state w) = []).

(** Example data: the items of the scenarios. *)
Definition haircut : Service := {| id := js "1"; name := js "Haircut" |}.
Definition hairdye : Service := {| id := js "2"; name := js "Hairdye" |}.
Definition chair : Service := {| id := js "3"; name := js "Chair" |}.

(** Decides a comparison of two string literals, in a hypothesis or in the
    goal. *)
Ltac by_literals :=
  match goal with
  | H : _ = _ |- _ => vm_compute in H; discriminate H
  | |- _ <> _ => vm_compute; discriminate
  | |- _ = _ => vm_compute; reflexivity
  end.

(** * Facts about the platform functions *)

Lemma strictEq_true (a b : jsstring) : JS.strictEq a b = true <-> a = b.
Proof. unfold JS.strictEq. apply bool_decide_eq_true. Qed.

Lemma strictEq_false (a b : jsstring) : JS.strictEq a b = false <-> a <> b.
Proof. unfold JS.strictEq. apply bool_decide_eq_false. Qed.

(** [s.substring(0, n)] is the first [n] units of [s], all of [s] when it is
    shorter. *)
Lemma substring_from_0 (n : nat) (s : jsstring) :
  JS.substring 0 n s = take n s.
Proof.
  unfold JS.substring. cbn [Nat.min Nat.max].
  rewrite Nat.sub_0_r, drop_0.
  destruct (Nat.le_ge_cases n (length s)) as [Hle | Hge].
  - by rewrite Nat.min_l by lia.
  - rewrite Nat.min_r by lia. by rewrite !take_ge by lia.
Qed.

(** Comparing [q] with the leading [|q|] units of [s] is the prefix test. *)
Lemma eq_take_prefix (q s : jsstring) :
  q = take (length q) s <-> q `prefix_of` s.
Proof.
  split.
  - intros ->. apply prefix_take.
  - intros [k ->]. by rewrite take_app_length.
Qed.

Lemma startsWith_prefix (s q : jsstring) :
  JS.startsWith s q = true <-> q `prefix_of` s.
Proof.
  revert s. induction q as [| a q IH]; intros s; simpl.
  - split; [intros _; apply prefix_nil | done].
  - destruct s as [| b s].
    + split; [done | intros H; by apply prefix_nil_not in H].
    + rewrite andb_true_iff, N.eqb_eq, IH. split.
      * intros [-> H]. by apply prefix_cons.
      * intros H. split; [by apply prefix_cons_inv_1 in H | by apply prefix_cons_inv_2 in H].
Qed.

(** [includes] is the substring test. *)
Lemma includes_contains (s q : jsstring) :
  JS.includes s q = true <-> contains s q.
Proof.
  unfold contains. induction s as [| b s IH].
  - simpl. rewrite orb_false_r, startsWith_prefix. split.
    + intros [k Hk]. exists [], k. done.
    + intros (pre & post & H). symmetry in H.
      apply app_eq_nil in H as [_ H]. apply app_eq_nil in H as [-> _].
      apply prefix_nil.
  - cbn [JS.includes]. rewrite orb_true_iff, startsWith_prefix, IH. split.
    + intros [[k Hk] | (pre & post & H)].
      * exists [], k. done.
      * exists (b :: pre), post. by rewrite H.
    + intros (pre & post & H). destruct pre as [| c pre].
      * left. exists post. done.
      * right. simplify_eq/=. by exists pre, post.
Qed.

Lemma includes_Is_true (s q : jsstring) :
  Is_true (JS.includes s q) <-> contains s q.
Proof. rewrite Is_true_true. apply includes_contains. Qed.

(** [trimStart] leaves nothing exactly of the strings made of white space. *)
Lemma trimStart_nil (s : jsstring) :
  JS.trimStart s = [] <-> Forall (fun c => JS.isWhiteSpace c = true) s.
Proof.
  induction s as [| c s IH]; simpl.
  - split; [constructor | done].
  - destruct (JS.isWhiteSpace c) eqn:Hc.
    + rewrite IH. split; [by constructor | by inversion 1].
    + split; [done | inversion 1; congruence].
Qed.

(** A string that does not start with white space is its own [trimStart]. *)
Lemma trimStart_head (s : jsstring) :
  JS.trimStart s = [] \/
  exists c rest, JS.trimStart s = c :: rest /\ JS.isWhiteSpace c = false.
Proof.
  induction s as [| c s IH]; simpl; [by left |].
  destruct (JS.isWhiteSpace c) eqn:Hc; [done |].
  right. by exists c, s.
Qed.

(** The query is blank: [trim] returns the empty string exactly on the
    strings made of white space only. *)
Lemma trim_nil (s : jsstring) :
  JS.trim s = [] <-> Forall (fun c => JS.isWhiteSpace c = true) s.
Proof.
  rewrite <- trimStart_nil. unfold JS.trim, JS.trimEnd. split.
  - intros H. apply (f_equal reverse) in H.
    rewrite reverse_involutive, reverse_nil in H.
    destruct (trimStart_head s) as [Hs | (c & rest & Hs & Hc)]; [done |].
    rewrite Hs in H. apply trimStart_nil in H.
    exfalso. apply Forall_reverse, Forall_cons_1 in H as [H _].
    simpl in H. congruence.
  - intros ->. done.
Qed.

(** * The editable input's width *)

Lemma shouldInputExpand_true (W S : jsstring) :
  shouldInputExpand W S = true <-> W = js "0px" \/ S = js "".
Proof.
  unfold shouldInputExpand.
  rewrite orb_true_iff, strictEq_true, Nat.eqb_eq, length_zero_iff_nil.
  done.
Qed.

Lemma inputWidth_expanded (W S : jsstring) :
  W = js "0px" \/ S = js "" -> inputWidth W S = js "100%".
Proof.
  intros H. apply shouldInputExpand_true in H.
  unfold inputWidth. by rewrite H.
Qed.

Lemma inputWidth_pinned (W S : jsstring) :
  W <> js "0px" -> S <> js "" -> inputWidth W S = W.
Proof.
  intros HW HS. unfold inputWidth.
  destruct (shouldInputExpand W S) eqn:E; [| done].
  apply shouldInputExpand_true in E as [E | E]; contradiction.
Qed.

(** C1, as stated, fails: with a measured width of ["0px"] and a suggestion
    on screen, neither condition of the claim holds, and yet the rendered
    width is ["100%"] and not the measured width. *)
Lemma width_rule_with_100_sentinel_fails :
  ~ ((js "0px" = js "100%" \/ js "Haircut" = js "" ->
        inputWidth (js "0px") (js "Haircut") = js "100%") /\
     (~ (js "0px" = js "100%" \/ js "Haircut" = js "") ->
        inputWidth (js "0px") (js "Haircut") = js "0px")).
Proof.
  intros [_ H].
  assert (E : inputWidth (js "0px") (js "Haircut") = js "0px").
  { apply H. intros [E | E]; by_literals. }
  by_literals.
Qed.

(** C1, amended: the rendered width is ["100%"] whenever the measured width
    is ["100%"] or ["0px"], or the suggestion is empty; in every other state
    it is the measured width. *)
Theorem width_rule_amended (W S : jsstring) :
  (W = js "100%" \/ W = js "0px" \/ S = js "" ->
     inputWidth W S = js "100%") /\
  (~ (W = js "100%" \/ W = js "0px" \/ S = js "") ->
     inputWidth W S = W).
Proof.
  split.
  - intros [-> | H].
    + unfold inputWidth. by destruct (shouldInputExpand _ S).
    + by apply inputWidth_expanded.
  - intros H. apply inputWidth_pinned; intros E; apply H; auto.
Qed.

(** The amended rule at the three kinds of state: unmeasured, zero width,
    and a measured width beside a suggestion. *)
Lemma width_rule_amended_witness :
  inputWidth (js "100%") (js "Haircut") = js "100%" /\
  inputWidth (js "0px") (js "Haircut") = js "100%" /\
  inputWidth (js "42px") (js "Haircut") = js "42px".
Proof.
  split; [| split].
  - apply (proj1 (width_rule_amended (js "100%") (js "Haircut"))).
    left. reflexivity.
  - apply (proj1 (width_rule_amended (js "0px") (js "Haircut"))).
    right. left. reflexivity.
  - apply (proj2 (width_rule_amended (js "42px") (js "Haircut"))).
    intros [H | [H | H]]; by_literals.
Defined.

(** C9, as stated, fails in one direction: at the initial measured width
    ["100%"] with a suggestion on screen the input is not expanded, and its
    width, the measured one, is ["100%"] all the same. *)
Lemma width_100_without_expanding :
  ~ (inputWidth (js "100%") (js "Haircut") = js "100%" <->
     (js "100%" = js "0px" \/ js "Haircut" = js "")).
Proof.
  intros [H _].
  destruct (H eq_refl) as [E | E]; by_literals.
Qed.

(** C9, amended: the decision to expand is taken exactly when the measured
    width is ["0px"] or the suggestion is empty; the rendered width is
    ["100%"] when it is taken and the measured width otherwise, so it is
    ["100%"] exactly when the measured width is ["0px"] or ["100%"] or the
    suggestion is empty, and it is never ["0px"]. *)
Theorem width_rule_0px (W S : jsstring) :
  (shouldInputExpand W S = true <-> W = js "0px" \/ S = js "") /\
  inputWidth W S = (if shouldInputExpand W S then js "100%" else W) /\
  (inputWidth W S = js "100%" <->
     W = js "0px" \/ S = js "" \/ W = js "100%") /\
  inputWidth W S <> js "0px".
Proof.
  split; [apply shouldInputExpand_true |].
  split; [reflexivity |].
  unfold inputWidth.
  destruct (shouldInputExpand W S) eqn:E.
  - apply shouldInputExpand_true in E. split.
    + split; [tauto | done].
    + by_literals.
  - assert (HW : W <> js "0px").
    { intros ->. by rewrite (proj2 (shouldInputExpand_true _ S)) in E by auto. }
    assert (HS : S <> js "").
    { intros ->. by rewrite (proj2 (shouldInputExpand_true W _)) in E by auto. }
    split; [| done].
    split; [auto | intros [H | [H | H]]; done].
Qed.

(** * The derived suggestion *)

(** [filteredServices[0]?.name || ""] is the first item's name, and [""]
    when there is no first item. *)
Lemma firstSearchItemText_head (filtered : list Service) :
  firstSearchItemText filtered =
  match filtered with [] => js "" | s :: _ => name s end.
Proof.
  destruct filtered as [| s rest]; [reflexivity |].
  unfold firstSearchItemText. simpl. by destruct (name s).
Qed.

Lemma isInputValueSubstrin_prefix (Q : jsstring) (filtered : list Service) :
  isInputValueSubstrinOfFirstSearchItem Q filtered = true <->
  Q `prefix_of` firstSearchItemText filtered.
Proof.
  unfold isInputValueSubstrinOfFirstSearchItem.
  by rewrite strictEq_true, substring_from_0, eq_take_prefix.
Qed.

Lemma newPlaceholder_match (Q : jsstring) (filtered : list Service) :
  Q `prefix_of` firstSearchItemText filtered ->
  newPlaceholder Q filtered = firstSearchItemText filtered.
Proof.
  intros H. apply isInputValueSubstrin_prefix in H.
  unfold newPlaceholder. by rewrite H.
Qed.

Lemma newPlaceholder_no_match (Q : jsstring) (filtered : list Service) :
  ~ Q `prefix_of` firstSearchItemText filtered ->
  newPlaceholder Q filtered = js "".
Proof.
  intros H. unfold newPlaceholder.
  destruct (isInputValueSubstrinOfFirstSearchItem Q filtered) eqn:E; [| done].
  by apply isInputValueSubstrin_prefix in E.
Qed.

(** C2: with [firstName] the name of the first filtered item ([""] when
    there is none), the comparison of [Q] with the leading [|Q|] units of
    [firstName] is the literal prefix test, and the derived suggestion is
    [firstName] when it succeeds and [""] when it fails. *)
Theorem suggestion_prefix_rule
    (Q : jsstring) (filtered : list Service) (firstName : jsstring) :
  firstName = match filtered with [] => js "" | s :: _ => name s end ->
  (Q = take (length Q) firstName <-> Q `prefix_of` firstName) /\
  (Q = take (length Q) firstName -> newPlaceholder Q filtered = firstName) /\
  (Q <> take (length Q) firstName -> newPlaceholder Q filtered = js "").
Proof.
  intros ->. rewrite <- firstSearchItemText_head.
  split; [apply eq_take_prefix |]. rewrite eq_take_prefix. split.
  - apply newPlaceholder_match.
  - apply newPlaceholder_no_match.
Qed.

(** Scenario 1 of the specification: the query "Hair" over both items. *)
Lemma suggestion_prefix_rule_witness :
  newPlaceholder (js "Hair") [haircut; hairdye] = js "Haircut".
Proof.
  apply (suggestion_prefix_rule (js "Hair") [haircut; hairdye] (js "Haircut")).
  - reflexivity.
  - reflexivity.
Defined.

(** C3, as stated, fails: with an empty query and a first filtered item
    "Haircut", the derived suggestion is "Haircut" although the query is
    empty. *)
Lemma suggestion_despite_empty_query :
  ~ (newPlaceholder (js "") [haircut; hairdye] = js "Haircut" <->
     (js "" `prefix_of` js "Haircut" /\ js "" <> js "")).
Proof.
  intros [H _]. destruct (H eq_refl) as [_ E]. by apply E.
Qed.

(** C3, amended: the derived suggestion equals [F], the first filtered
    item's name or [""], if and only if [F] starts with [Q] (an empty [Q]
    included) or [F] is [""]; in every other case it is [""]. *)
Theorem suggestion_iff_prefix
    (Q : jsstring) (filtered : list Service) (F : jsstring) :
  F = match filtered with [] => js "" | s :: _ => name s end ->
  (newPlaceholder Q filtered = F <-> (Q `prefix_of` F \/ F = js "")) /\
  (newPlaceholder Q filtered <> F -> newPlaceholder Q filtered = js "").
Proof.
  intros ->. rewrite <- firstSearchItemText_head.
  destruct (decide (Q `prefix_of` firstSearchItemText filtered)) as [Hp | Hn].
  - rewrite (newPlaceholder_match _ _ Hp). split; [split; auto | done].
  - rewrite (newPlaceholder_no_match _ _ Hn). split; [| done]. split.
    + intros <-. by right.
    + intros [Hp | ->]; done.
Qed.

(** The amended rule on a query that is no prefix of the first name: the
    suggestion differs from "Haircut", and is [""]. *)
Lemma suggestion_iff_prefix_witness :
  (newPlaceholder (js "air") [haircut; hairdye] = js "Haircut" <->
     (js "air" `prefix_of` js "Haircut" \/ js "Haircut" = js "")) /\
  (newPlaceholder (js "air") [haircut; hairdye] <> js "Haircut" ->
     newPlaceholder (js "air") [haircut; hairdye] = js "").
Proof.
  apply (suggestion_iff_prefix (js "air") [haircut; hairdye] (js "Haircut")).
  reflexivity.
Defined.

(** C8: with an empty query the prefix test succeeds whatever the first
    filtered item is, so the derived suggestion is that item's name: the
    full name of the first item when there is one, and not [""]. *)
Theorem empty_query_suggests_first_item (filtered : list Service) :
  isInputValueSubstrinOfFirstSearchItem (js "") filtered = true /\
  newPlaceholder (js "") filtered = firstSearchItemText filtered /\
  (forall s rest, newPlaceholder (js "") (s :: rest) = name s).
Proof.
  assert (H : forall l, newPlaceholder (js "") l = firstSearchItemText l).
  { intros l. apply newPlaceholder_match, prefix_nil. }
  split; [apply isInputValueSubstrin_prefix, prefix_nil |].
  split; [apply H |].
  intros s rest. by rewrite H, firstSearchItemText_head.
Qed.

(** * The filter *)

Lemma filteredItems_nonblank (Q : jsstring) (L : list Service) :
  JS.trim Q <> js "" -> filteredItems Q L = results Q L.
Proof.
  intros H. apply strictEq_false in H.
  unfold filteredItems. by rewrite H.
Qed.

Lemma elem_of_results (Q : jsstring) (L : list Service) (s : Service) :
  s ∈ results Q L <-> s ∈ L /\ contains (name s) Q.
Proof.
  unfold results. rewrite list_elem_of_filter, includes_Is_true. tauto.
Qed.

(** C4: for a query that is not blank, the filtered list holds exactly the
    items of [L] whose name contains the query, unit for unit (so with the
    case of every letter), in the order they have in [L]; it is [L] filtered
    by the substring predicate, whatever decides that predicate. *)
Theorem filteredItems_substring (Q : jsstring) (L : list Service) :
  JS.trim Q <> js "" ->
  (forall s, s ∈ filteredItems Q L <-> s ∈ L /\ contains (name s) Q) /\
  filteredItems Q L `sublist_of` L /\
  (forall (dec : forall s, Decision (contains (name s) Q)),
     filteredItems Q L = filter (fun s => contains (name s) Q) L).
Proof.
  intros H. rewrite (filteredItems_nonblank _ _ H).
  split; [intros s; apply elem_of_results |].
  split; [apply sublist_filter |].
  intros dec. unfold results. apply list_filter_iff.
  intros s. apply includes_Is_true.
Qed.

(** Scenarios 1 and 3 of the specification: "Hair" keeps both items in
    their order, "Dye" keeps none, the names holding a small "d". *)
Lemma filteredItems_substring_witness :
  filteredItems (js "Hair") [haircut; hairdye] `sublist_of` [haircut; hairdye] /\
  (haircut ∈ filteredItems (js "Dye") [haircut; hairdye] <->
     haircut ∈ [haircut; hairdye] /\ contains (name haircut) (js "Dye")).
Proof.
  split.
  - apply (filteredItems_substring (js "Hair") [haircut; hairdye]).
    by_literals.
  - apply (filteredItems_substring (js "Dye") [haircut; hairdye]).
    by_literals.
Defined.

Example scenario_1 :
  filteredItems (js "Hair") [haircut; hairdye] = [haircut; hairdye] /\
  newPlaceholder (js "Hair") (filteredItems (js "Hair") [haircut; hairdye])
  = js "Haircut".
Proof. split; reflexivity. Qed.

Example scenario_3 :
  filteredItems (js "Dye") [haircut; hairdye] = [] /\
  filteredItems (js "dye") [haircut; hairdye] = [hairdye] /\
  newPlaceholder (js "Dye") (filteredItems (js "Dye") [haircut; hairdye])
  = js "".
Proof. repeat split; reflexivity. Qed.

(** C5: a blank query, one that [trim] empties, filters every list to the
    empty list. *)
Theorem filteredItems_blank (Q : jsstring) (L : list Service) :
  JS.trim Q = js "" -> filteredItems Q L = [].
Proof.
  intros H. apply strictEq_true in H.
  unfold filteredItems. by rewrite H.
Qed.

(** Scenario 2 of the specification and a query of spaces and a tab. *)
Lemma filteredItems_blank_witness :
  filteredItems (js "") [haircut; hairdye] = [] /\
  filteredItems (32 :: 9 :: 32 :: []) [haircut; hairdye] = [].
Proof.
  split.
  - apply (filteredItems_blank (js "")). reflexivity.
  - apply (filteredItems_blank (32 :: 9 :: 32 :: [])). reflexivity.
Defined.

(** C10: when the query is not blank but starts or ends with white space,
    an item of [L] is kept exactly when its name contains the query as it
    was typed, white space included: [trim] only decides whether the query
    is blank. *)
Theorem filteredItems_untrimmed
    (Q : jsstring) (L : list Service) (s : Service) :
  JS.trim Q <> js "" ->
  hasOuterWhiteSpace Q ->
  s ∈ L ->
  (s ∈ filteredItems Q L <-> contains (name s) Q) /\
  filteredItems Q L = results Q L.
Proof.
  intros H _ Hs. rewrite (filteredItems_nonblank _ _ H).
  split; [| done]. rewrite elem_of_results. tauto.
Qed.

(** "Hair " with a trailing space: "Haircut" contains the trimmed query but
    not the typed one, and is dropped. *)
Lemma filteredItems_untrimmed_witness :
  (haircut ∈ filteredItems (js "Hair ") [haircut; hairdye] <->
     contains (name haircut) (js "Hair ")) /\
  filteredItems (js "Hair ") [haircut; hairdye] = results (js "Hair ") [haircut; hairdye].
Proof.
  apply (filteredItems_untrimmed (js "Hair ") [haircut; hairdye] haircut).
  - by_literals.
  - right. exists 32. split; reflexivity.
  - apply list_elem_of_here.
Defined.

Example trailing_space_drops_match :
  JS.includes (name haircut) (JS.trim (js "Hair ")) = true /\
  filteredItems (js "Hair ") [haircut; hairdye] = [] /\
  filteredItems (js "Hair") [haircut; hairdye] = [haircut; hairdye].
Proof. repeat split; reflexivity. Qed.

(** * Fetching the items *)

Lemma runFetchEffect_mounted (w : Widget) :
  fetchEffectDeps w = Some tt -> runFetchEffect w = w.
Proof. intros H. unfold runFetchEffect. by rewrite H. Qed.

Lemma runFilterEffect_fetch_fields (w : Widget) :
  fetchEffectDeps (runFilterEffect w) = fetchEffectDeps w /\
  requests (runFilterEffect w) = requests w /\
  inFlight (runFilterEffect w) = inFlight w.
Proof. unfold runFilterEffect. by destruct (effectFires _ _). Qed.

(** Once the fetch effect has run, no event sends a request again. *)
Lemma step_mounted (w : Widget) (e : Event) :
  fetchEffectDeps w = Some tt ->
  fetchEffectDeps (step w e) = Some tt /\ requests (step w e) = requests w.
Proof.
  intros H. destruct e; simpl; try done.
  - rewrite (runFetchEffect_mounted _ H).
    destruct (runFilterEffect_fetch_fields w) as (-> & -> & _). done.
  - by destruct (inFlight w).
Qed.

Lemma run_mounted (evs : list Event) (w : Widget) :
  fetchEffectDeps w = Some tt ->
  requests (run evs w) = requests w.
Proof.
  revert w. induction evs as [| e evs IH]; intros w H; [done |].
  destruct (step_mounted w e H) as [H1 H2].
  unfold run in *. simpl. by rewrite IH, H2.
Qed.

Lemma mount_sends_one_request :
  fetchEffectDeps (step unmounted Commit) = Some tt /\
  requests (step unmounted Commit) = [fetchUrl] /\
  inFlight (step unmounted Commit) = 1%nat.
Proof. repeat split; reflexivity. Qed.

(** A settled promise that does not reach [setServices] changes nothing. *)
Lemma onFetchSettled_failure (r : Settled Response) (st : State) :
  r = Rejected \/ (exists res, r = Fulfilled res /\ json res = Rejected) ->
  onFetchSettled r st = st.
Proof.
  intros [-> | (res & -> & H)]; simpl; [done |]. by rewrite H.
Qed.

Lemma run_snoc (evs : list Event) (e : Event) (w : Widget) :
  run (evs ++ [e]) w = step (run evs w) e.
Proof. unfold run. by rewrite fold_left_app. Qed.

Lemma runFilterEffect_services (w : Widget) :
  services (state (runFilterEffect w)) = services (state w).
Proof. unfold runFilterEffect. cbv zeta. by destruct (effectFires _ _). Qed.

(** Until the request settles, the widget keeps waiting for it: typing,
    deliveries of the gates and commits leave the one request in flight and
    the fetched list empty. *)
Lemma awaitingResponse_step (w : Widget) (e : Event) :
  isSettlement e = false -> awaitingResponse w -> awaitingResponse (step w e).
Proof.
  intros He (Hd & H1 & Hs). unfold awaitingResponse.
  destruct e; simpl; try done.
  rewrite (runFetchEffect_mounted _ Hd), runFilterEffect_services.
  by destruct (runFilterEffect_fetch_fields w) as (-> & _ & ->).
Qed.

Lemma awaitingResponse_run (evs : list Event) (w : Widget) :
  Forall (fun e => isSettlement e = false) evs ->
  awaitingResponse w -> awaitingResponse (run evs w).
Proof.
  intros Hevs. revert w.
  induction Hevs as [| e evs He _ IH]; intros w Hw; [done |].
  apply (IH (step w e)). by apply awaitingResponse_step.
Qed.

Lemma awaitingResponse_mount : awaitingResponse (step unmounted Commit).
Proof. repeat split. Qed.

(** C7: nothing is requested before the mount and the list starts empty;
    the mount sends one request for the item list, which it leaves in
    flight, and no later event sends another, a failure included; when that
    request succeeds, after whatever was typed and committed in between,
    the list is the response, and so it is for every widget with a request
    in flight, whatever its list was; when the request or the reading of its
    body fails, the state is left as it was: the list keeps its value, the
    initial empty one after the mount, and no cell records the failure. *)
Theorem fetch_once_on_mount :
  (requests unmounted = [] /\ inFlight unmounted = 0%nat /\
   services (state unmounted) = []) /\
  (requests (run [Commit] unmounted) = [fetchUrl] /\
   inFlight (run [Commit] unmounted) = 1%nat) /\
  (forall evs, requests (run (Commit :: evs) unmounted) = [fetchUrl]) /\
  (forall evs s,
     Forall (fun e => isSettlement e = false) evs ->
     services (state (run (Commit :: evs ++
        [FetchSettled (Fulfilled {| json := Fulfilled s |})]) unmounted))
     = s) /\
  (forall w s n,
     inFlight w = S n ->
     services (state (step w (FetchSettled (Fulfilled {| json := Fulfilled s |}))))
     = s) /\
  (forall evs r,
     Forall (fun e => isSettlement e = false) evs ->
     r = Rejected \/ (exists res, r = Fulfilled res /\ json res = Rejected) ->
     services (state (run (Commit :: evs ++ [FetchSettled r]) unmounted)) = [] /\
     state (run (Commit :: evs ++ [FetchSettled r]) unmounted)
     = state (run (Commit :: evs) unmounted)) /\
  (forall w r,
     r = Rejected \/ (exists res, r = Fulfilled res /\ json res = Rejected) ->
     state (step w (FetchSettled r)) = state w /\
     requests (step w (FetchSettled r)) = requests w).
Proof.
  assert (Hwait : forall evs,
    Forall (fun e => isSettlement e = false) evs ->
    awaitingResponse (run (Commit :: evs) unmounted)).
  { intros evs Hevs.
    apply (awaitingResponse_run evs (step unmounted Commit) Hevs).
    apply awaitingResponse_mount. }
  assert (Hfail : forall w r,
    r = Rejected \/ (exists res, r = Fulfilled res /\ json res = Rejected) ->
    state (step w (FetchSettled r)) = state w /\
    requests (step w (FetchSettled r)) = requests w).
  { intros w r H. simpl. destruct (inFlight w); [done |]. simpl.
    by rewrite (onFetchSettled_failure _ _ H). }
  split; [repeat split |]. split; [split; reflexivity |].
  split; [| split; [| split; [| split; [| exact Hfail]]]].
  - intros evs. unfold run. simpl fold_left.
    destruct mount_sends_one_request as (H & <- & _).
    by apply run_mounted.
  - intros evs s Hevs.
    rewrite (app_comm_cons evs _ Commit), run_snoc.
    destruct (Hwait evs Hevs) as (_ & H1 & _). revert H1.
    generalize (run (Commit :: evs) unmounted). intros v H1.
    simpl. by rewrite H1.
  - intros w s n H. simpl. by rewrite H.
  - intros evs r Hevs Hr.
    rewrite (app_comm_cons evs _ Commit), run_snoc.
    destruct (Hwait evs Hevs) as (_ & _ & Hs).
    destruct (Hfail (run (Commit :: evs) unmounted) r Hr) as [-> _].
    done.
Qed.

(** The mount, "Hair" typed and committed while the request is in flight,
    then the response with both items: the list is the response. *)
Lemma fetch_once_on_mount_witness :
  services (state (run (Commit :: [QueryDelivered (js "Hair"); Commit] ++
     [FetchSettled (Fulfilled {| json := Fulfilled [haircut; hairdye] |})])
     unmounted))
  = [haircut; hairdye].
Proof.
  apply (proj1 (proj2 (proj2 (proj2 fetch_once_on_mount)))).
  repeat constructor.
Defined.

(** A response with both items replaces the empty list; a rejection after
    that keeps them, and still one request has been sent. *)
Example fetch_success_then_nothing_more :
  let ok := FetchSettled (Fulfilled {| json := Fulfilled [haircut; hairdye] |}) in
  let w := run [Commit; ok; Commit; FetchSettled Rejected; Commit] unmounted in
  services (state w) = [haircut; hairdye] /\ requests w = [fetchUrl].
Proof. split; reflexivity. Qed.

Example fetch_failure_keeps_empty_list :
  let w := run [Commit; FetchSettled Rejected; Commit] unmounted in
  state w = initialState /\ requests w = [fetchUrl] /\ inFlight w = 0%nat.
Proof. repeat split; reflexivity. Qed.

(** The state C8 speaks of is reached: when the query goes back to [""],
    the render that follows still holds the items filtered for "Hair", and
    the suggestion derived from it is "Haircut"; the commit of that render
    empties the filtered list. *)
Example stale_filter_after_clearing_query :
  let ok := FetchSettled (Fulfilled {| json := Fulfilled [haircut; hairdye] |}) in
  let w := run [Commit; ok; Commit; QueryDelivered (js "Hair"); Commit;
                QueryDelivered (js "")] unmounted in
  serviceSearchInputValue (state w) = js "" /\
  filteredServices (state w) = [haircut; hairdye] /\
  newPlaceholder (serviceSearchInputValue (state w)) (filteredServices (state w))
  = js "Haircut" /\
  filteredServices (state (step w Commit)) = [].
Proof. repeat split; reflexivity. Qed.

(** * More on the filter *)

Lemma contains_trans (n q' q : jsstring) :
  contains n q' -> contains q' q -> contains n q.
Proof.
  intros (a & b & ->) (c & d & ->).
  exists (a ++ c), (d ++ b). by rewrite <- !(assoc_L (++)).
Qed.

Lemma filteredItems_sublist (Q : jsstring) (L : list Service) :
  filteredItems Q L `sublist_of` L.
Proof.
  unfold filteredItems, results.
  destruct (negb _); [apply sublist_filter | apply sublist_nil_l].
Qed.

Lemma filteredItems_of_blank (Q : jsstring) (L : list Service) :
  JS.trim Q = js "" -> filteredItems Q L = [].
Proof.
  intros H. unfold filteredItems.
  by rewrite (proj2 (strictEq_true _ _) H).
Qed.

Lemma filteredItems_nil (Q : jsstring) : filteredItems Q [] = [].
Proof. apply sublist_nil_r, filteredItems_sublist. Qed.

(** Filtering by [q'] what was filtered by [q] is filtering by [q'], when
    every name that contains [q'] contains [q]. *)
Lemma results_results (q' q : jsstring) (L : list Service) :
  (forall s, contains (name s) q' -> contains (name s) q) ->
  results q' (results q L) = results q' L.
Proof.
  intros H. unfold results. rewrite list_filter_filter.
  apply list_filter_iff. intros s. rewrite !includes_Is_true.
  split; [by intros [? _] | intros ?; split; auto].
Qed.

(** X1: typing on never brings an item back. When the query [Q] occurs in
    the longer query [Q'] and [Q] is not blank, the items kept for [Q'] are
    among the items kept for [Q], in the same order. *)
Theorem filteredItems_narrows (Q Q' : jsstring) (L : list Service) :
  contains Q' Q ->
  JS.trim Q <> js "" ->
  filteredItems Q' L `sublist_of` filteredItems Q L.
Proof.
  intros HQ Hnb. rewrite (filteredItems_nonblank Q L Hnb).
  unfold filteredItems. destruct (negb _); [| apply sublist_nil_l].
  rewrite <- (results_results Q' Q).
  - apply sublist_filter.
  - intros s Hs. by apply contains_trans with Q'.
Qed.

Lemma filteredItems_narrows_witness :
  filteredItems (js "Haird") [haircut; hairdye]
  `sublist_of` filteredItems (js "Hair") [haircut; hairdye].
Proof.
  apply (filteredItems_narrows (js "Hair") (js "Haird")).
  - exists [], (js "d"). reflexivity.
  - by_literals.
Defined.

(** X2: the filter is idempotent: filtering the filtered list by the same
    query changes nothing. *)
Theorem filteredItems_idempotent (Q : jsstring) (L : list Service) :
  filteredItems Q (filteredItems Q L) = filteredItems Q L.
Proof.
  unfold filteredItems. destruct (negb _); [| done].
  by apply results_results.
Qed.

(** X3: when no name of [L] contains the query, nothing is kept and the
    suggestion derived from the filtered list is [""]; so it is for every
    query when the fetched list is empty. *)
Theorem no_match_no_suggestion (Q : jsstring) (L : list Service) :
  (forall s, s ∈ L -> ~ contains (name s) Q) ->
  filteredItems Q L = [] /\
  newPlaceholder Q (filteredItems Q L) = js "".
Proof.
  intros H.
  assert (E : filteredItems Q L = []).
  { unfold filteredItems. destruct (negb _); [| done].
    apply elem_of_nil_inv. intros s Hs.
    apply elem_of_results in Hs as [Hs Hc]. by apply (H s). }
  split; [done |]. rewrite E. unfold newPlaceholder.
  by destruct (isInputValueSubstrinOfFirstSearchItem Q []).
Qed.

(** Scenario 3 of the specification. *)
Lemma no_match_no_suggestion_witness :
  filteredItems (js "Dye") [haircut; hairdye] = [] /\
  newPlaceholder (js "Dye") (filteredItems (js "Dye") [haircut; hairdye])
  = js "".
Proof.
  apply (no_match_no_suggestion (js "Dye") [haircut; hairdye]).
  intros s Hs Hc. apply includes_contains in Hc.
  apply elem_of_cons in Hs as [-> | Hs]; [by_literals |].
  apply list_elem_of_singleton in Hs as ->. by_literals.
Defined.

(** * The suggestion derived from a fresh filtered list *)

Lemma newPlaceholder_nil (Q : jsstring) : newPlaceholder Q [] = js "".
Proof.
  unfold newPlaceholder.
  by destruct (isInputValueSubstrinOfFirstSearchItem Q []).
Qed.

(** X4: a blank query gives no suggestion once the filter has run: the
    suggestion derived from [filteredItems Q L] is [""] when [trim] empties
    [Q], the empty query included. *)
Theorem blank_query_no_suggestion (Q : jsstring) (L : list Service) :
  JS.trim Q = js "" ->
  newPlaceholder Q (filteredItems Q L) = js "".
Proof.
  intros H. rewrite (filteredItems_of_blank Q L H). apply newPlaceholder_nil.
Qed.

Lemma blank_query_no_suggestion_witness :
  newPlaceholder (js " ") (filteredItems (js " ") [haircut; hairdye]) = js "".
Proof.
  apply (blank_query_no_suggestion (js " ")). reflexivity.
Defined.

(** X5: a suggestion derived from a fresh filtered list is sound. When it
    is not [""], the query is not blank, the suggestion starts with the
    query, and it is the name of the first kept item, an item of [L] whose
    name contains the query. *)
Theorem fresh_suggestion_sound (Q : jsstring) (L : list Service) :
  newPlaceholder Q (filteredItems Q L) <> js "" ->
  JS.trim Q <> js "" /\
  Q `prefix_of` newPlaceholder Q (filteredItems Q L) /\
  exists s rest,
    filteredItems Q L = s :: rest /\
    newPlaceholder Q (filteredItems Q L) = name s /\
    s ∈ L /\ contains (name s) Q.
Proof.
  intros Hp.
  destruct (decide (Q `prefix_of` firstSearchItemText (filteredItems Q L)))
    as [Hpre | Hno]; [| by rewrite newPlaceholder_no_match in Hp].
  rewrite (newPlaceholder_match _ _ Hpre) in *.
  rewrite firstSearchItemText_head in *.
  destruct (filteredItems Q L) as [| s rest] eqn:E; [done |].
  assert (Hnb : JS.trim Q <> js "").
  { intros Hb. by rewrite (filteredItems_of_blank Q L Hb) in E. }
  split; [done |]. split; [done |].
  exists s, rest. split; [done |]. split; [done |].
  apply elem_of_results. rewrite <- (filteredItems_nonblank Q L Hnb), E.
  apply list_elem_of_here.
Qed.

Lemma fresh_suggestion_sound_witness :
  JS.trim (js "Hair") <> js "" /\
  js "Hair" `prefix_of`
    newPlaceholder (js "Hair") (filteredItems (js "Hair") [haircut; hairdye]) /\
  exists s rest,
    filteredItems (js "Hair") [haircut; hairdye] = s :: rest /\
    newPlaceholder (js "Hair") (filteredItems (js "Hair") [haircut; hairdye])
    = name s /\
    s ∈ [haircut; hairdye] /\ contains (name s) (js "Hair").
Proof.
  apply (fresh_suggestion_sound (js "Hair") [haircut; hairdye]).
  by_literals.
Defined.

(** X6: only the first kept item can be suggested. When [s] is the first
    item of [L] whose name contains the query (not blank), the filtered
    list starts with [s], and the suggestion is the name of [s] if that name
    starts with the query and [""] if it does not, whatever the later items
    are. *)
Theorem first_match_decides
    (Q : jsstring) (before after : list Service) (s : Service) :
  JS.trim Q <> js "" ->
  (forall x, x ∈ before -> ~ contains (name x) Q) ->
  contains (name s) Q ->
  filteredItems Q (before ++ s :: after) = s :: filteredItems Q after /\
  (Q `prefix_of` name s ->
     newPlaceholder Q (filteredItems Q (before ++ s :: after)) = name s) /\
  (~ Q `prefix_of` name s ->
     newPlaceholder Q (filteredItems Q (before ++ s :: after)) = js "").
Proof.
  intros Hnb Hbefore Hs.
  assert (E : filteredItems Q (before ++ s :: after)
              = s :: filteredItems Q after).
  { rewrite !(filteredItems_nonblank _ _ Hnb). unfold results.
    rewrite filter_app, filter_cons_True by by apply includes_Is_true.
    replace (filter _ before) with (@nil Service); [done |].
    symmetry. apply elem_of_nil_inv. intros x Hx.
    apply list_elem_of_filter in Hx as [Hc Hx].
    apply includes_Is_true in Hc. by apply (Hbefore x). }
  split; [done |]. rewrite E. split; intros H.
  - rewrite newPlaceholder_match; by rewrite firstSearchItemText_head.
  - apply newPlaceholder_no_match. by rewrite firstSearchItemText_head.
Qed.

(** "Chair" contains "hair" and comes first: "hairdye" behind it starts
    with the query and is not suggested. *)
Lemma first_match_decides_witness :
  newPlaceholder (js "hair")
    (filteredItems (js "hair")
       ([haircut] ++ chair :: [{| id := js "4"; name := js "hairdye" |}]))
  = js "".
Proof.
  apply (first_match_decides (js "hair") [haircut] [_] chair).
  - by_literals.
  - intros x Hx. apply list_elem_of_singleton in Hx as ->.
    intros Hc. apply includes_contains in Hc. by_literals.
  - exists (js "C"), (js ""). reflexivity.
  - intros Hc. apply startsWith_prefix in Hc. by_literals.
Defined.

(** * The result list *)

Lemma SearchResults_keys (filtered : list Service) :
  key <$> SearchResults filtered = name <$> filtered.
Proof.
  unfold SearchResults. rewrite <- list_fmap_compose.
  by apply list_fmap_ext.
Qed.

(** X7: when the names of the fetched items are pairwise distinct, the rows
    of the result list have pairwise distinct React keys, for every query. *)
Theorem SearchResults_keys_distinct (Q : jsstring) (L : list Service) :
  NoDup (name <$> L) ->
  NoDup (key <$> SearchResults (filteredItems Q L)).
Proof.
  intros H. rewrite SearchResults_keys.
  apply (sublist_NoDup _ (name <$> L)); [done |].
  apply fmap_sublist, filteredItems_sublist.
Qed.

Lemma SearchResults_keys_distinct_witness :
  NoDup (key <$> SearchResults (filteredItems (js "Hair") [haircut; hairdye])).
Proof.
  apply (SearchResults_keys_distinct (js "Hair") [haircut; hairdye]).
  apply NoDup_cons. split.
  - intros H. apply list_elem_of_singleton in H. by_literals.
  - apply NoDup_singleton.
Defined.

(** The key is the name and not the id: two kept items with one name give
    two rows with one key. *)
Example SearchResults_duplicate_key :
  key <$> SearchResults
    (filteredItems (js "Hair")
       [haircut; {| id := js "9"; name := js "Haircut" |}])
  = [js "Haircut"; js "Haircut"].
Proof. reflexivity. Qed.

(** * Invariants of the event machine *)

Lemma effectFires_false {D : Type} `{EqDecision D} (prev : option D) (cur : D) :
  effectFires prev cur = false -> prev = Some cur.
Proof.
  destruct prev as [d |]; simpl; [| done].
  intros H. apply negb_false_iff, bool_decide_eq_true in H. by subst.
Qed.

(** A property kept by every step holds after every run. *)
Lemma run_invariant (P : Widget -> Prop) :
  (forall w e, P w -> P (step w e)) ->
  forall evs w, P w -> P (run evs w).
Proof.
  intros Hstep evs. induction evs as [| e evs IH]; intros w Hw; [done |].
  apply (IH (step w e)), Hstep, Hw.
Qed.

Lemma runFetchEffect_keeps (w : Widget) :
  state (runFetchEffect w) = state w /\
  filterEffectDeps (runFetchEffect w) = filterEffectDeps w.
Proof. unfold runFetchEffect. by destruct (effectFires _ _). Qed.

(** The filter effect leaves the query and the fetched items alone, and
    after it the filtered list is the filter of the two. *)
Lemma runFilterEffect_sync (w : Widget) :
  filterDepsAgree w ->
  serviceSearchInputValue (state (runFilterEffect w))
  = serviceSearchInputValue (state w) /\
  services (state (runFilterEffect w)) = services (state w) /\
  filteredServices (state (runFilterEffect w))
  = filteredItems (serviceSearchInputValue (state w)) (services (state w)) /\
  filterDepsAgree (runFilterEffect w).
Proof.
  intros Hw. unfold runFilterEffect. cbv zeta.
  destruct (effectFires _ _) eqn:E.
  - repeat split; try done. intros q s [= <- <-]. done.
  - apply effectFires_false in E. repeat split; try done. by apply Hw.
Qed.

Lemma filterDepsAgree_step (w : Widget) (e : Event) :
  filterDepsAgree w -> filterDepsAgree (step w e).
Proof.
  intros Hw. destruct e; simpl; try done.
  - apply runFilterEffect_sync.
    destruct (runFetchEffect_keeps w) as [Hs Hd].
    unfold filterDepsAgree. by rewrite Hs, Hd.
  - destruct (inFlight w); [done |].
    destruct r as [[[s |]] |]; done.
Qed.

Lemma filterDepsAgree_unmounted : filterDepsAgree unmounted.
Proof. intros q s H. discriminate H. Qed.

Lemma filterDepsAgree_run (evs : list Event) :
  filterDepsAgree (run evs unmounted).
Proof.
  apply run_invariant; [apply filterDepsAgree_step |].
  apply filterDepsAgree_unmounted.
Qed.

Lemma commit_sync (w : Widget) :
  filterDepsAgree w ->
  filteredServices (state (step w Commit))
  = filteredItems (serviceSearchInputValue (state (step w Commit)))
      (services (state (step w Commit))).
Proof.
  intros Hw. simpl. destruct (runFetchEffect_keeps w) as [Hs Hd].
  destruct (runFilterEffect_sync (runFetchEffect w)) as (-> & -> & -> & _).
  - unfold filterDepsAgree. by rewrite Hs, Hd.
  - by rewrite Hs.
Qed.

(** X8: the filtered list is in step with the query after every commit.
    Whatever happened before, once a render is committed the filtered list
    is the filter of the current query over the current items. *)
Theorem commit_filter_in_sync (evs : list Event) :
  filteredServices (state (run (evs ++ [Commit]) unmounted))
  = filteredItems
      (serviceSearchInputValue (state (run (evs ++ [Commit]) unmounted)))
      (services (state (run (evs ++ [Commit]) unmounted))).
Proof. rewrite run_snoc. apply commit_sync, filterDepsAgree_run. Qed.

(** X9: a second commit with nothing in between changes nothing: the write
    of the filter effect does not make an effect of [ServiceSearch] run
    again, so the effects do not loop. *)
Theorem commit_idempotent (w : Widget) :
  step (step w Commit) Commit = step w Commit.
Proof.
  simpl.
  assert (Hf : forall v, fetchEffectDeps (runFilterEffect (runFetchEffect v)) = Some tt).
  { intros v. destruct (runFilterEffect_fetch_fields (runFetchEffect v)) as (-> & _).
    unfold runFetchEffect. destruct (effectFires _ _) eqn:E; [done |].
    apply effectFires_false in E. done. }
  rewrite (runFetchEffect_mounted _ (Hf w)).
  generalize (runFetchEffect w). intros v.
  unfold runFilterEffect at 1. cbv zeta.
  destruct (effectFires _ _) eqn:E; [| done].
  exfalso. revert E. unfold runFilterEffect. cbv zeta.
  destruct (effectFires (filterEffectDeps v) _) eqn:E1; simpl.
  - by rewrite bool_decide_eq_true_2.
  - by rewrite E1.
Qed.

Lemma fetchBookkeeping_unmounted : fetchBookkeeping unmounted.
Proof.
  unfold fetchBookkeeping. simpl.
  split; [apply sublist_nil_l |]. split; [lia |]. split; [done |].
  intros H. by destruct H.
Qed.

Lemma fetchBookkeeping_frame (w : Widget) (st : State) :
  services st = services (state w) ->
  filteredServices st = filteredServices (state w) ->
  fetchBookkeeping w -> fetchBookkeeping (withState st w).
Proof. unfold fetchBookkeeping. simpl. by intros -> ->. Qed.

Lemma fetchBookkeeping_step (w : Widget) (e : Event) :
  fetchBookkeeping w -> fetchBookkeeping (step w e).
Proof.
  intros Hw. destruct e.
  - (* Commit *)
    assert (H1 : fetchBookkeeping (runFetchEffect w)).
    { unfold runFetchEffect. destruct (effectFires _ _) eqn:E; [| done].
      destruct Hw as (Hsub & Hle & Hnone & Hfly).
      destruct (fetchEffectDeps w) as [[] |] eqn:Ed.
      - by vm_compute in E.
      - destruct (Hnone eq_refl) as [H0 Hs].
        unfold fetchBookkeeping. simpl. rewrite H0, Hs in *.
        apply sublist_nil_r in Hsub. rewrite Hsub.
        split; [done |]. split; [lia |]. done. }
    revert H1. simpl. generalize (runFetchEffect w). clear. intros v Hv.
    unfold runFilterEffect. cbv zeta. destruct (effectFires _ _); [| done].
    destruct Hv as (Hsub & Hle & Hnone & Hfly).
    unfold fetchBookkeeping. simpl. split; [apply filteredItems_sublist |].
    split; [done |]. split; [done |].
    intros H. destruct (Hfly H) as [Hs _]. rewrite Hs.
    split; [done | apply filteredItems_nil].
  - (* FetchSettled *)
    simpl. destruct (inFlight w) as [| n] eqn:En; [done |].
    destruct Hw as (Hsub & Hle & Hnone & Hfly). rewrite En in *.
    destruct Hfly as [Hs Hf]; [done |].
    assert (n = 0%nat) as -> by lia.
    unfold fetchBookkeeping. simpl.
    assert (Hf' : filteredServices (onFetchSettled r (state w)) = []).
    { by destruct r as [[[s |]] |]. }
    rewrite Hf'. split; [apply sublist_nil_l |]. split; [lia |].
    split; [| done]. intros Hd. by destruct (Hnone Hd).
  - by apply fetchBookkeeping_frame.
  - by apply fetchBookkeeping_frame.
  - by apply fetchBookkeeping_frame.
Qed.

(** X10: in every state the machine reaches, the filtered list is a
    sublist of the fetched list: the result list never shows an item the
    server did not send, also while the filtered list is stale. *)
Theorem filtered_sublist_of_services (evs : list Event) :
  filteredServices (state (run evs unmounted))
  `sublist_of` services (state (run evs unmounted)).
Proof.
  apply (run_invariant fetchBookkeeping fetchBookkeeping_step evs unmounted).
  apply fetchBookkeeping_unmounted.
Qed.

(** X11: never more than one request is in flight, and while it is the
    fetched list and the filtered list are both empty, whatever is typed. *)
Theorem nothing_listed_while_in_flight (evs : list Event) :
  (inFlight (run evs unmounted) <= 1)%nat /\
  (inFlight (run evs unmounted) <> 0%nat ->
     services (state (run evs unmounted)) = [] /\
     filteredServices (state (run evs unmounted)) = []).
Proof.
  destruct (run_invariant fetchBookkeeping fetchBookkeeping_step evs unmounted
              fetchBookkeeping_unmounted) as (_ & H1 & _ & H2).
  done.
Qed.

(** X12: there is no refresh. Once the widget is mounted and its request
    has settled, no event changes the fetched list: typing, measuring,
    committing and a late settlement all leave it as it is. *)
Theorem services_fixed_once_settled (w : Widget) (evs : list Event) :
  fetchEffectDeps w = Some tt ->
  inFlight w = 0%nat ->
  services (state (run evs w)) = services (state w) /\
  requests (run evs w) = requests w.
Proof.
  intros Hd H0.
  pose (P := fun v : Widget =>
    fetchEffectDeps v = Some tt /\ inFlight v = 0%nat /\
    services (state v) = services (state w) /\ requests v = requests w).
  assert (H : P (run evs w)).
  { apply run_invariant; [| by repeat split].
    clear. intros v e (Hd & H0 & Hs & Hr). unfold P. destruct e; simpl.
    - rewrite (runFetchEffect_mounted _ Hd), runFilterEffect_services.
      by destruct (runFilterEffect_fetch_fields v) as (-> & -> & ->).
    - by rewrite H0.
    - done.
    - done.
    - done. }
  by destruct H as (_ & _ & Hs & Hr).
Qed.

(** After the items have arrived, a query, a commit and a stray rejection
    leave them in place. *)
Lemma services_fixed_once_settled_witness :
  services (state
    (run [QueryDelivered (js "Hair"); Commit; FetchSettled Rejected]
       (run [Commit;
             FetchSettled (Fulfilled {| json := Fulfilled [haircut; hairdye] |})]
          unmounted)))
  = [haircut; hairdye].
Proof.
  apply (services_fixed_once_settled
           (run [Commit;
                 FetchSettled (Fulfilled {| json := Fulfilled [haircut; hairdye] |})]
              unmounted)).
  - reflexivity.
  - reflexivity.
Defined.

(** X13: the rows of the result list for the list the filter effect
    writes, when the names of the fetched items are pairwise distinct (the
    rows are keyed by name). For a blank query there is no row. For any
    other query the rows are exactly those whose key and text are the name
    of a fetched item that contains the query, each of them once. *)
Theorem rows_of_filtered_list (Q : jsstring) (L : list Service) :
  NoDup (name <$> L) ->
  (JS.trim Q = js "" -> SearchResults (filteredItems Q L) = []) /\
  (JS.trim Q <> js "" ->
     NoDup (SearchResults (filteredItems Q L)) /\
     forall row,
       row ∈ SearchResults (filteredItems Q L) <->
       key row = text row /\ contains (text row) Q /\
       exists s, s ∈ L /\ name s = text row).
Proof.
  intros Hnd. split.
  - intros Hb. by rewrite (filteredItems_of_blank Q L Hb).
  - intros Hnb. split.
    + apply (NoDup_fmap_1 key). rewrite SearchResults_keys.
      apply (sublist_NoDup _ (name <$> L)); [done |].
      apply fmap_sublist, filteredItems_sublist.
    + intros row. rewrite (filteredItems_nonblank Q L Hnb).
      unfold SearchResults. rewrite list_elem_of_fmap. split.
      * intros (s & -> & Hs). apply elem_of_results in Hs as [Hs Hc].
        simpl. split; [done |]. split; [done |]. by exists s.
      * intros (Hk & Hc & s & Hs & Hn). exists s. split.
        -- destruct row as [k t]. simpl in *. by subst.
        -- apply elem_of_results. split; [done |]. by rewrite Hn.
Qed.

(** "dye" over both items: the one row is "Hairdye", and "Haircut" has
    none. *)
Lemma rows_of_filtered_list_witness :
  {| key := js "Hairdye"; text := js "Hairdye" |}
    ∈ SearchResults (filteredItems (js "dye") [haircut; hairdye]) /\
  ~ {| key := js "Haircut"; text := js "Haircut" |}
    ∈ SearchResults (filteredItems (js "dye") [haircut; hairdye]).
Proof.
  assert (Hnd : NoDup (name <$> [haircut; hairdye])).
  { apply NoDup_cons. split; [| apply NoDup_singleton].
    intros H. apply list_elem_of_singleton in H. by_literals. }
  assert (Hnb : JS.trim (js "dye") <> js "") by by_literals.
  destruct (rows_of_filtered_list (js "dye") [haircut; hairdye] Hnd)
    as [_ H].
  destruct (H Hnb) as [_ Hrow]. split.
  - apply Hrow. split; [done |]. split.
    + exists (js "Hair"), (js ""). reflexivity.
    + exists hairdye. split; [| done].
      apply list_elem_of_further, list_elem_of_here.
  - intros Hin. apply Hrow in Hin as (_ & Hc & _).
    apply includes_contains in Hc. by_literals.
Defined.
